(** * Symphonia FFI smoke test ([testc/main.c]) and the demuxing core it exercises

    The C program is a straight line of three calls into the Symphonia FFI
    followed by one guarded [printf].  It is embedded as a tree of external
    calls ([prog]) which is run against an arbitrary implementation of the
    library ([library]); a run yields the exit status, the text written on
    standard output and the chronological list of calls with their arguments
    and results.

    The second half models the prober and the demuxer behind the FFI.  Their
    code is not part of [testc/]; those models follow the written
    specification and say so. *)

From Stdlib Require Import ZArith NArith String Ascii List Bool Lia.
Import ListNotations.

Local Open Scope Z_scope.

(** ** Values *)

(** [void *] and [SMPacket *]: an address.  [NULL] is address zero. *)
Definition ptr : Type := Z.
Definition NULL : ptr := 0.

(** The C test [p != NULL]. *)
Definition ptr_neq (p q : ptr) : bool := negb (p =? q).

(** ** External calls

    The functions [main.c] can reach: the three FFI entry points it calls,
    [printf], and [free], which [<stdlib.h>] (included on line 1) declares.
    The index is the C return type. *)
Inductive extcall : Type -> Type :=
| sm_io_media_source_stream_new_file (path : string) : extcall ptr
| sm_probe (mss : ptr) : extcall ptr
| sm_format_next_packet (format : ptr) : extcall ptr
| printf (fmt : string) : extcall Z
| free (p : ptr) : extcall unit.

(** A C function body: return, or call out and continue with the result. *)
Inductive prog (R : Type) : Type :=
| Ret (r : R)
| Call {X : Type} (c : extcall X) (k : X -> prog R).

Arguments Ret {R} r.
Arguments Call {R X} c k.

Fixpoint bind {A B : Type} (p : prog A) (f : A -> prog B) : prog B :=
  match p with
  | Ret a => f a
  | Call c k => Call c (fun x => bind (k x) f)
  end.

Definition call {X : Type} (c : extcall X) : prog X := Call c Ret.

Declare Scope prog_scope.
Delimit Scope prog_scope with prog.
Notation "x <- c ;; k" := (bind c (fun x => k))
  (at level 61, c at next level, right associativity) : prog_scope.
Notation "c ;; k" := (bind c (fun _ => k))
  (at level 61, right associativity) : prog_scope.

(** [if (b) { body }] *)
Definition when (b : bool) (body : prog unit) : prog unit :=
  if b then body else Ret tt.

(** ** The program *)

(** The string literal of line 6, after C escape processing (each [\\] of the
    source is one backslash). *)
Definition media_path : string :=
  "D:\Media\Torrent\Movies\A.Million.Miles.Away.2023.DV.HDR.2160p.WEB-DL.H265.Master5.mkv".

Definition decoded_msg : string := "Packet was decoded".

(** [int main(int argc, char const *argv[])] *)
Definition main (argc : Z) (argv : list string) : prog Z :=
  (mss <- call (sm_io_media_source_stream_new_file media_path) ;;
   format <- call (sm_probe mss) ;;
   packet <- call (sm_format_next_packet format) ;;
   when (ptr_neq packet NULL)
        (_ <- call (printf decoded_msg) ;; Ret tt) ;;
   Ret 0)%prog.

(** ** Running a program *)

(** One entry of the call log: the function, its argument, what it returned. *)
Inductive event : Type :=
| ev_new_file (path : string) (ret : ptr)
| ev_probe (mss ret : ptr)
| ev_next_packet (format ret : ptr)
| ev_printf (fmt : string) (ret : Z)
| ev_free (p : ptr).

Inductive callee : Type :=
| fn_new_file | fn_probe | fn_next_packet | fn_printf | fn_free.

Definition callee_of (e : event) : callee :=
  match e with
  | ev_new_file _ _ => fn_new_file
  | ev_probe _ _ => fn_probe
  | ev_next_packet _ _ => fn_next_packet
  | ev_printf _ _ => fn_printf
  | ev_free _ => fn_free
  end.

Definition callee_eqb (f g : callee) : bool :=
  match f, g with
  | fn_new_file, fn_new_file | fn_probe, fn_probe
  | fn_next_packet, fn_next_packet | fn_printf, fn_printf
  | fn_free, fn_free => true
  | _, _ => false
  end.

(** Calls into the Symphonia FFI, as opposed to the C library. *)
Definition is_ffi (e : event) : bool :=
  match e with
  | ev_new_file _ _ | ev_probe _ _ | ev_next_packet _ _ => true
  | _ => false
  end.

(** Calls that give a resource back. *)
Definition is_release (e : event) : bool :=
  match e with
  | ev_free _ => true
  | _ => false
  end.

Definition count_calls (f : callee) (tr : list event) : nat :=
  List.length (filter (fun e => callee_eqb (callee_of e) f) tr).

(** Results of the [sm_format_next_packet] calls of a log, in order. *)
Fixpoint next_packet_results (tr : list event) : list ptr :=
  match tr with
  | [] => []
  | ev_next_packet _ r :: tr' => r :: next_packet_results tr'
  | _ :: tr' => next_packet_results tr'
  end.

(** The library behind the header, over a state [W] of its own.  Nothing is
    known about it: each entry point may return any pointer, [NULL]
    included, and change [W] at will.  Every call returns to its caller. *)
Record library (W : Type) : Type := {
  lib_new_file : string -> W -> ptr * W;
  lib_probe : ptr -> W -> ptr * W;
  lib_next_packet : ptr -> W -> ptr * W;
  lib_free : ptr -> W -> W
}.

Arguments lib_new_file {W} l _ _.
Arguments lib_probe {W} l _ _.
Arguments lib_next_packet {W} l _ _.
Arguments lib_free {W} l _ _.

Record machine (W : Type) : Type := {
  world : W;
  stdout : string;
  trace : list event
}.

Arguments Build_machine {W} _ _ _.
Arguments world {W} m.
Arguments stdout {W} m.
Arguments trace {W} m.

Section Run.
Variable W : Type.
Variable lib : library W.

Definition log (m : machine W) (w : W) (out : string) (e : event) : machine W :=
  {| world := w; stdout := out; trace := trace m ++ [e] |}.

(** A format without conversion specifications is written as it is;
    [printf] returns the number of characters written. *)
Definition perform {X : Type} (c : extcall X) (m : machine W) : X * machine W :=
  match c in extcall T return T * machine W with
  | sm_io_media_source_stream_new_file path =>
      let (r, w) := lib_new_file lib path (world m) in
      (r, log m w (stdout m) (ev_new_file path r))
  | sm_probe mss =>
      let (r, w) := lib_probe lib mss (world m) in
      (r, log m w (stdout m) (ev_probe mss r))
  | sm_format_next_packet format =>
      let (r, w) := lib_next_packet lib format (world m) in
      (r, log m w (stdout m) (ev_next_packet format r))
  | printf fmt =>
      let n := Z.of_nat (String.length fmt) in
      (n, log m (world m) (stdout m ++ fmt)%string (ev_printf fmt n))
  | free p =>
      (tt, log m (lib_free lib p (world m)) (stdout m) (ev_free p))
  end.

Fixpoint run {R : Type} (p : prog R) (m : machine W) : R * machine W :=
  match p with
  | Ret r => (r, m)
  | Call c k => let (x, m') := perform c m in run (k x) m'
  end.

Definition boot (w : W) : machine W :=
  {| world := w; stdout := EmptyString; trace := [] |}.

(** The process: [main] started on an empty output and an empty log. *)
Definition exec_main (argc : Z) (argv : list string) (w : W) : Z * machine W :=
  run (main argc argv) (boot w).

Definition exit_status (argc : Z) (argv : list string) (w : W) : Z :=
  fst (exec_main argc argv w).
Definition output (argc : Z) (argv : list string) (w : W) : string :=
  stdout (snd (exec_main argc argv w)).
Definition calls (argc : Z) (argv : list string) (w : W) : list event :=
  trace (snd (exec_main argc argv w)).

(** What the library answers along the run of [main] from world [w]. *)
Definition mss_of (w : W) : ptr := fst (lib_new_file lib media_path w).
Definition world1 (w : W) : W := snd (lib_new_file lib media_path w).
Definition format_of (w : W) : ptr := fst (lib_probe lib (mss_of w) (world1 w)).
Definition world2 (w : W) : W := snd (lib_probe lib (mss_of w) (world1 w)).
Definition packet_of (w : W) : ptr :=
  fst (lib_next_packet lib (format_of w) (world2 w)).
Definition world3 (w : W) : W :=
  snd (lib_next_packet lib (format_of w) (world2 w)).

Definition ffi_prefix (w : W) : list event :=
  [ev_new_file media_path (mss_of w);
   ev_probe (mss_of w) (format_of w);
   ev_next_packet (format_of w) (packet_of w)].
End Run.

Arguments perform {W} lib {X} c m.
Arguments run {W} lib {R} p m.
Arguments boot {W} w.
Arguments exec_main {W} lib argc argv w.
Arguments exit_status {W} lib argc argv w.
Arguments output {W} lib argc argv w.
Arguments calls {W} lib argc argv w.
Arguments mss_of {W} lib w.
Arguments world1 {W} lib w.
Arguments format_of {W} lib w.
Arguments world2 {W} lib w.
Arguments packet_of {W} lib w.
Arguments world3 {W} lib w.
Arguments ffi_prefix {W} lib w.

(** Two concrete libraries to run the program on: one that hands out fresh
    non-null handles from a counter, one that answers the three calls with
    three given pointers, any of which may be [NULL]. *)
Definition lib_counting : library Z := {|
  lib_new_file := fun _ w => (w + 1, w + 1);
  lib_probe := fun _ w => (w + 1, w + 1);
  lib_next_packet := fun _ w => (w + 1, w + 1);
  lib_free := fun _ w => w
|}.

Definition lib_const (mss format packet : ptr) : library unit := {|
  lib_new_file := fun _ w => (mss, w);
  lib_probe := fun _ w => (format, w);
  lib_next_packet := fun _ w => (packet, w);
  lib_free := fun _ w => w
|}.


(** ** Runs in which a call may not come back

    Nothing in [main.c] makes the callees return: a library entry point may
    trap on a bad handle or end the process, and [printf] may fail.  Here
    the environment answers all five functions itself, over a state of its
    own, and may leave any call unanswered; the run then stops at that call
    and [main] does not return. *)

(** What [main] asks for: the function and its argument, before any answer. *)
Inductive request : Type :=
| rq_new_file (path : string)
| rq_probe (mss : ptr)
| rq_next_packet (format : ptr)
| rq_printf (fmt : string)
| rq_free (p : ptr).

Definition request_of {X : Type} (c : extcall X) : request :=
  match c with
  | sm_io_media_source_stream_new_file path => rq_new_file path
  | sm_probe mss => rq_probe mss
  | sm_format_next_packet format => rq_next_packet format
  | printf fmt => rq_printf fmt
  | free p => rq_free p
  end.

Definition request_of_event (e : event) : request :=
  match e with
  | ev_new_file path _ => rq_new_file path
  | ev_probe mss _ => rq_probe mss
  | ev_next_packet format _ => rq_next_packet format
  | ev_printf fmt _ => rq_printf fmt
  | ev_free p => rq_free p
  end.

(** [None]: the call does not return. *)
Record environment (St : Type) : Type := {
  env_new_file : string -> St -> option (ptr * St);
  env_probe : ptr -> St -> option (ptr * St);
  env_next_packet : ptr -> St -> option (ptr * St);
  env_printf : string -> St -> option (Z * St);
  env_free : ptr -> St -> option St
}.

Arguments env_new_file {St} e _ _.
Arguments env_probe {St} e _ _.
Arguments env_next_packet {St} e _ _.
Arguments env_printf {St} e _ _.
Arguments env_free {St} e _ _.

(** How a run ends ([None]: stuck in a call), the state the environment is
    left in, and the calls asked for, in order, the unanswered one last. *)
Record run_result (St R : Type) : Type := {
  ending : option R;
  final : St;
  asked : list request
}.

Arguments Build_run_result {St R} _ _ _.
Arguments ending {St R} r.
Arguments final {St R} r.
Arguments asked {St R} r.

Definition answered {A : Type} (o : option A) : bool :=
  match o with
  | Some _ => true
  | None => false
  end.

Section Exec.
Variable St : Type.
Variable env : environment St.

Definition answer {X : Type} (c : extcall X) (s : St) : option (X * St) :=
  match c in extcall T return option (T * St) with
  | sm_io_media_source_stream_new_file path => env_new_file env path s
  | sm_probe mss => env_probe env mss s
  | sm_format_next_packet format => env_next_packet env format s
  | printf fmt => env_printf env fmt s
  | free p =>
      match env_free env p s with
      | Some s' => Some (tt, s')
      | None => None
      end
  end.

Fixpoint exec {R : Type} (p : prog R) (s : St) (seen : list request)
  : run_result St R :=
  match p with
  | Ret r => {| ending := Some r; final := s; asked := seen |}
  | Call c k =>
      match answer c s with
      | Some (x, s') => exec (k x) s' (seen ++ [request_of c])
      | None => {| ending := None; final := s;
                   asked := seen ++ [request_of c] |}
      end
  end.

Definition start_main (argc : Z) (argv : list string) (s : St)
  : run_result St Z :=
  exec (main argc argv) s [].

(** Whether the environment answers request [rq] in state [s]. *)
Definition replies (rq : request) (s : St) : bool :=
  match rq with
  | rq_new_file path => answered (env_new_file env path s)
  | rq_probe mss => answered (env_probe env mss s)
  | rq_next_packet format => answered (env_next_packet env format s)
  | rq_printf fmt => answered (env_printf env fmt s)
  | rq_free p => answered (env_free env p s)
  end.

(** Every function answers in every state. *)
Definition always_answers : Prop :=
  (forall path s, env_new_file env path s <> None) /\
  (forall mss s, env_probe env mss s <> None) /\
  (forall format s, env_next_packet env format s <> None) /\
  (forall fmt s, env_printf env fmt s <> None) /\
  (forall p s, env_free env p s <> None).

(** The same environment, except that [printf] reports [g fmt s] instead of
    what it reported. *)
Definition with_printf_result (g : string -> St -> Z) : environment St := {|
  env_new_file := env_new_file env;
  env_probe := env_probe env;
  env_next_packet := env_next_packet env;
  env_printf := fun fmt s =>
    match env_printf env fmt s with
    | Some (_, s') => Some (g fmt s, s')
    | None => None
    end;
  env_free := env_free env
|}.
End Exec.

Arguments answer {St} env {X} c s.
Arguments exec {St} env {R} p s seen.
Arguments start_main {St} env argc argv s.
Arguments replies {St} env rq s.
Arguments always_answers {St} env.
Arguments with_printf_result {St} env g.

(** A [library] as an environment: every call answers, [printf] appends
    the format to the output kept beside the library's state. *)
Definition env_of_library {W : Type} (lib : library W)
  : environment (W * string) := {|
  env_new_file := fun path s =>
    let (r, w) := lib_new_file lib path (fst s) in Some (r, (w, snd s));
  env_probe := fun mss s =>
    let (r, w) := lib_probe lib mss (fst s) in Some (r, (w, snd s));
  env_next_packet := fun format s =>
    let (r, w) := lib_next_packet lib format (fst s) in Some (r, (w, snd s));
  env_printf := fun fmt s =>
    Some (Z.of_nat (String.length fmt), (fst s, (snd s ++ fmt)%string));
  env_free := fun p s => Some (lib_free lib p (fst s), snd s)
|}.

(** Environments to run on.  In the first the file cannot be opened and
    [sm_probe] traps on the [NULL] it is handed.  In the second every call
    answers, the packet is live, and [printf] fails (standard output is
    closed), reporting -1 and writing nothing; the state counts the calls
    answered. *)
Definition env_probe_traps : environment unit := {|
  env_new_file := fun _ s => Some (NULL, s);
  env_probe := fun mss s => if mss =? NULL then None else Some (mss + 1, s);
  env_next_packet := fun format s => Some (format + 1, s);
  env_printf := fun fmt s => Some (Z.of_nat (String.length fmt), s);
  env_free := fun _ s => Some s
|}.

Definition env_printf_fails : environment nat := {|
  env_new_file := fun _ s => Some (4096, Datatypes.S s);
  env_probe := fun mss s => Some (mss + 16, Datatypes.S s);
  env_next_packet := fun format s => Some (format + 16, Datatypes.S s);
  env_printf := fun _ s => Some (-1, Datatypes.S s);
  env_free := fun _ s => Some (Datatypes.S s)
|}.

(** * The demuxing core behind the FFI

    [sm_probe] and [sm_format_next_packet] are implemented by the Symphonia
    crates, which [testc/] only links against.  The definitions below are
    written from the specification of that core (byte source, format prober,
    demuxer state machine). *)

(** ** Byte source and format prober *)

Module Prober.

(** Modelled from the spec: the error kinds of sections 4.1, 4.2 and 7 that
    the byte source and the prober report (no error type reaches
    [testc/], which only sees [NULL]). *)
Inductive Error : Type :=
| IOError | UnseekableError | OutOfRangeError
| UnrecognizedFormatError | TruncatedStreamError.

(** Modelled from the spec: the Byte Source of section 4.1 (its
    implementation is not in [testc/]): a stream of bytes with a current
    position and a seekability flag; the length is that of the content. *)
Record ByteSource : Type := {
  content : list Byte.byte;
  position : nat;
  seekable : bool
}.

(** Modelled from the spec: [read(buf, max_len) -> bytes_read] of section
    4.1, absent from [testc/]; it never advances the position past the
    length. *)
Definition read (src : ByteSource) (max_len : nat) : list Byte.byte * ByteSource :=
  let got := firstn max_len (skipn (position src) (content src)) in
  (got, {| content := content src;
           position := position src + List.length got;
           seekable := seekable src |}).

(** Modelled from the spec: [seek(offset) -> new_position] of section 4.1,
    absent from [testc/]: [UnseekableError] when seeking is unsupported,
    [OutOfRangeError] when the offset exceeds the length. *)
Definition seek (src : ByteSource) (offset : nat) : (Error + nat) * ByteSource :=
  if negb (seekable src) then (inl UnseekableError, src)
  else if (List.length (content src) <? offset)%nat then (inl OutOfRangeError, src)
  else (inr offset, {| content := content src; position := offset;
                       seekable := seekable src |}).

(** Modelled from the spec: a format detector of section 4.2 (the detectors
    are not in [testc/]): it inspects the lookahead window and returns a
    confidence score, or [None] when it cannot decide from the data given. *)
Record Detector : Type := {
  det_format : string;
  det_score : list Byte.byte -> option N
}.

(** Modelled from the spec: the two parameters section 4.2 leaves open,
    absent from [testc/]: the size of the lookahead window and the minimum
    confidence a detector must exceed. *)
Record Config : Type := {
  window_size : nat;
  min_confidence : N
}.

(** Modelled from the spec: the lookahead of section 4.2, absent from
    [testc/]: the first [window_size] bytes of the content, read through a
    peek buffer, so the window does not depend on the current position. *)
Definition lookahead (cfg : Config) (src : ByteSource) : list Byte.byte :=
  firstn (window_size cfg) (content src).

(** The detectors that decided, in registration order, with their scores. *)
Fixpoint verdicts (dets : list Detector) (window : list Byte.byte)
  : list (Detector * N) :=
  match dets with
  | [] => []
  | d :: dets' =>
      match det_score d window with
      | Some c => (d, c) :: verdicts dets' window
      | None => verdicts dets' window
      end
  end.

(** Modelled from the spec: the tie-break policy of section 4.2, absent
    from [testc/]: highest confidence wins; on an exact tie the detector
    registered first wins, so a later candidate replaces the best one
    only when it is strictly better. *)
Fixpoint select (cands : list (Detector * N)) (best : option (Detector * N))
  : option (Detector * N) :=
  match cands with
  | [] => best
  | (d, c) :: rest =>
      match best with
      | None => select rest (Some (d, c))
      | Some (_, cb) =>
          if (cb <? c)%N then select rest (Some (d, c)) else select rest best
      end
  end.

(** Modelled from the spec: [probe(source)] of section 4.2, absent from
    [testc/].  It returns the selected format (the demuxer is built from
    it) and leaves the source rewound to position 0.  It fails with
    [UnrecognizedFormatError] if no detector exceeds the minimum
    confidence, and with [TruncatedStreamError] if the window cannot be
    filled and no detector can decide from the partial data. *)
Definition probe (cfg : Config) (dets : list Detector) (src : ByteSource)
  : (Error + string) * ByteSource :=
  let window := lookahead cfg src in
  let rewound := {| content := content src; position := 0;
                    seekable := seekable src |} in
  let cands := verdicts dets window in
  match select cands None with
  | Some (d, c) =>
      if (min_confidence cfg <? c)%N then (inr (det_format d), rewound)
      else (inl UnrecognizedFormatError, rewound)
  | None =>
      if (List.length window <? window_size cfg)%nat
      then (inl TruncatedStreamError, rewound)
      else (inl UnrecognizedFormatError, rewound)
  end.

(** Detectors to run the prober on. *)
Fixpoint starts_with (magic window : list Byte.byte) : option bool :=
  match magic, window with
  | [], _ => Some true
  | _ :: _, [] => None
  | m :: magic', b :: window' =>
      if Byte.eqb m b then starts_with magic' window' else Some false
  end.

Definition magic_detector (name : string) (magic : list Byte.byte) (conf : N)
  : Detector :=
  {| det_format := name;
     det_score := fun w =>
       match starts_with magic w with
       | Some true => Some conf
       | Some false => Some 0%N
       | None => None
       end |}.

Definition ebml_magic : list Byte.byte := [Byte.x1a; Byte.x45; Byte.xdf; Byte.xa3].

Definition registry : list Detector :=
  [ magic_detector "mkv" ebml_magic 100;
    magic_detector "webm" ebml_magic 100;
    magic_detector "ogg" [Byte.x4f; Byte.x67; Byte.x67; Byte.x53] 90 ].

Definition default_config : Config := {| window_size := 16; min_confidence := 50 |}.

Definition mkv_prefix : list Byte.byte :=
  ebml_magic ++ repeat Byte.x00 16.


End Prober.

(** ** Demuxer state machine *)

Module Demux.

(** Modelled from the spec: the error kinds of sections 4.3 and 7 that the
    demuxer reports (no error type reaches [testc/], which only sees
    [NULL]). *)
Inductive Error : Type :=
| IOError | CorruptContainerError | OutOfRangeError
| SeekIndexUnavailableError | InvalidStreamError.

(** Modelled from the spec: the Packet of section 3 (the packet type lives
    in the Symphonia crates, not in [testc/]): stream identifier, opaque
    payload, and timing fields in stream-local units. *)
Record Packet : Type := {
  stream_id : N;
  payload : list Byte.byte;
  timestamp : Z;
  duration : Z
}.

(** Modelled from the spec: a container-level record of section 4.3, absent
    from [testc/]: a packet of some stream, or a malformed structure. *)
Inductive ContainerRecord : Type :=
| Rec (p : Packet)
| Malformed.

(** Modelled from the spec: the states of section 4.3 (the state machine is
    not in [testc/]).  [Seeking] is transient: it is entered and left
    inside [seek]. *)
Inductive State : Type :=
| Initialized | Streaming | Seeking | Exhausted | Failed.

(** Modelled from the spec: the result [Packet | EndOfStream] of
    [next_packet] in section 4.3, absent from [testc/]. *)
Inductive Item : Type :=
| Pkt (p : Packet)
| EndOfStream.

(** Modelled from the spec: an entry of the seek index of section 3, absent
    from [testc/]: a stream, a timestamp, and where the packet is. *)
Record IndexEntry : Type := {
  ie_stream : N;
  ie_timestamp : Z;
  ie_position : nat
}.

(** Modelled from the spec: the Demuxer of section 3, absent from
    [testc/]: the parsed container metadata (stream table, seek index if
    the container has one), the records of the underlying source in
    arrival order, and a cursor that always rests on a record boundary.
    The records are held as parsed: reading them does not fail, so
    [IOError] is never raised here. *)
Record Demuxer : Type := {
  records : list ContainerRecord;
  cursor : nat;
  state : State;
  stream_table : list N;
  seek_index : option (list IndexEntry);
  linear_scan : bool
}.

Definition known (sid : N) (table : list N) : bool :=
  existsb (N.eqb sid) table.

Definition with_state (d : Demuxer) (s : State) : Demuxer :=
  {| records := records d; cursor := cursor d; state := s;
     stream_table := stream_table d; seek_index := seek_index d;
     linear_scan := linear_scan d |}.

Definition at_record (d : Demuxer) (pos : nat) : Demuxer :=
  {| records := records d; cursor := pos; state := Streaming;
     stream_table := stream_table d; seek_index := seek_index d;
     linear_scan := linear_scan d |}.


(** Modelled from the spec: [next_packet()] of section 4.3, absent from
    [testc/].  It reads the record under the cursor and resolves it to a
    logical stream.  A malformed record fails with [CorruptContainerError]
    and moves to [Failed]; the end of the source returns [EndOfStream] and
    moves to [Exhausted]; once [Exhausted], it keeps returning
    [EndOfStream]; once [Failed], nothing is recoverable without a seek. *)
Definition next_packet (d : Demuxer) : (Error + Item) * Demuxer :=
  match state d with
  | Exhausted => (inr EndOfStream, d)
  | Failed => (inl CorruptContainerError, d)
  | Initialized | Streaming | Seeking =>
      match nth_error (records d) (cursor d) with
      | None => (inr EndOfStream, with_state d Exhausted)
      | Some Malformed => (inl CorruptContainerError, with_state d Failed)
      | Some (Rec p) =>
          if known (stream_id p) (stream_table d)
          then (inr (Pkt p), at_record d (S (cursor d)))
          else (inl CorruptContainerError, with_state d Failed)
      end
  end.

(** [n] calls of [next_packet] in a row: the results, and the demuxer left. *)
Fixpoint next_packets (n : nat) (d : Demuxer) : list (Error + Item) * Demuxer :=
  match n with
  | O => ([], d)
  | S n' =>
      let (r, d1) := next_packet d in
      let (rs, d2) := next_packets n' d1 in
      (r :: rs, d2)
  end.

(** Modelled from the spec: the container's index of section 4.3, absent
    from [testc/]: one entry per well-formed record of a known stream,
    with the position of the record, from position [pos] on. *)
Fixpoint index_from (table : list N) (pos : nat) (rs : list ContainerRecord)
  : list IndexEntry :=
  match rs with
  | [] => []
  | Rec p :: rs' =>
      if known (stream_id p) table
      then {| ie_stream := stream_id p; ie_timestamp := timestamp p;
              ie_position := pos |} :: index_from table (S pos) rs'
      else index_from table (S pos) rs'
  | Malformed :: rs' => index_from table (S pos) rs'
  end.

(** Modelled from the spec: "locate the nearest packet at or before
    [timestamp]" (section 4.3; not in [testc/]): among the entries of
    stream [sid] with a timestamp at most [t], the one with the greatest
    timestamp, the earliest such if several share it. *)
Fixpoint nearest (idx : list IndexEntry) (sid : N) (t : Z)
         (best : option IndexEntry) : option IndexEntry :=
  match idx with
  | [] => best
  | e :: idx' =>
      if (ie_stream e =? sid)%N && (ie_timestamp e <=? t)
      then match best with
           | None => nearest idx' sid t (Some e)
           | Some b =>
               if ie_timestamp b <? ie_timestamp e
               then nearest idx' sid t (Some e)
               else nearest idx' sid t best
           end
      else nearest idx' sid t best
  end.


(** The index a seek works from: the container's own, else one gathered by
    a linear scan when that is enabled. *)
Definition usable_index (d : Demuxer) : option (list IndexEntry) :=
  match seek_index d with
  | Some idx => Some idx
  | None =>
      if linear_scan d
      then Some (index_from (stream_table d) 0 (records d))
      else None
  end.

(** The entry of stream [sid] with the least timestamp, the first such if
    several share it: where a seek lands when nothing is at or before the
    target. *)
Fixpoint earliest (idx : list IndexEntry) (sid : N) (best : option IndexEntry)
  : option IndexEntry :=
  match idx with
  | [] => best
  | e :: idx' =>
      if (ie_stream e =? sid)%N
      then match best with
           | None => earliest idx' sid (Some e)
           | Some b =>
               if ie_timestamp e <? ie_timestamp b
               then earliest idx' sid (Some e)
               else earliest idx' sid best
           end
      else earliest idx' sid best
  end.

(** Modelled from the spec: [seek(stream_id, timestamp)] of section 4.3,
    absent from [testc/].  It fails in the two ways the contract names and
    in no other: [InvalidStreamError] if the stream is unknown,
    [SeekIndexUnavailableError] if there is no index and linear scan is
    disabled.  Otherwise it succeeds: the state is [Streaming] and the
    cursor is on the entry of the index nearest at or before [t], whose
    timestamp is returned.  The contract does not say what is located when
    no entry is at or before [t]: the seek then lands on the earliest
    entry of the stream, and on the end of the records if the stream has
    none.  A failed seek leaves the demuxer as it was. *)
Definition seek (d : Demuxer) (sid : N) (t : Z) : (Error + Z) * Demuxer :=
  if negb (known sid (stream_table d)) then (inl InvalidStreamError, d)
  else
    match usable_index d with
    | None => (inl SeekIndexUnavailableError, d)
    | Some idx =>
        match nearest idx sid t None with
        | Some e => (inr (ie_timestamp e), at_record d (ie_position e))
        | None =>
            match earliest idx sid None with
            | Some e => (inr (ie_timestamp e), at_record d (ie_position e))
            | None => (inr t, at_record d (List.length (records d)))
            end
        end
    end.

(** Modelled from the spec: construction of a Demuxer by the prober
    (section 3, ProbeResult; not in [testc/]): headers parsed, no packet
    read yet.  The seek index is container metadata: it is taken as parsed
    from the container, [None] when the container has none, and may list
    only some of the packets. *)
Definition open_container (table : list N) (rs : list ContainerRecord)
           (index : option (list IndexEntry)) (scan : bool) : Demuxer :=
  {| records := rs; cursor := 0; state := Initialized;
     stream_table := table;
     seek_index := index;
     linear_scan := scan |}.

(** A caller's use of a demuxer: any sequence of the two operations. *)
Inductive Op : Type :=
| OpNextPacket
| OpSeek (sid : N) (t : Z).

Definition apply_op (d : Demuxer) (o : Op) : Demuxer :=
  match o with
  | OpNextPacket => snd (next_packet d)
  | OpSeek sid t => snd (seek d sid t)
  end.

Definition apply_ops (ops : list Op) (d : Demuxer) : Demuxer :=
  fold_left apply_op ops d.

(** Every entry of the index held names a packet that is there: a
    well-formed record of that stream and timestamp at that position. *)
Definition index_accurate (d : Demuxer) : Prop :=
  forall idx e, seek_index d = Some idx -> In e idx ->
                In e (index_from (stream_table d) 0 (records d)).



Definition entry (sid : N) (ts : Z) (pos : nat) : IndexEntry :=
  {| ie_stream := sid; ie_timestamp := ts; ie_position := pos |}.

(** The fixture of section 8: one stream, three packets at 0, 10, 20. *)
Definition pkt (sid : N) (ts : Z) : Packet :=
  {| stream_id := sid; payload := []; timestamp := ts; duration := 10 |}.

Definition fixture : Demuxer :=
  open_container [1%N] [Rec (pkt 1 0); Rec (pkt 1 10); Rec (pkt 1 20)]
    (Some [entry 1 0 0; entry 1 10 1; entry 1 20 2]) false.


(** The fixture after its three packets have been read. *)
Definition fixture_read : Demuxer := snd (next_packets 3 fixture).

(** Two interleaved streams, one of them with timestamps out of arrival
    order, and a malformed record in between; no index, linear scan on. *)
Definition interleaved : Demuxer :=
  open_container [1%N; 2%N]
    [Rec (pkt 1 0); Rec (pkt 2 3); Rec (pkt 1 20); Malformed;
     Rec (pkt 2 12); Rec (pkt 1 10); Rec (pkt 2 9)] None true.

End Demux.

(** * Properties of [main] *)

(** ** Concrete runs *)

Example run_counting :
  exec_main lib_counting 1 ["testc"%string] 4096 =
  (0, {| world := 4099; stdout := decoded_msg;
         trace := [ev_new_file media_path 4097; ev_probe 4097 4098;
                   ev_next_packet 4098 4099; ev_printf decoded_msg 18] |}).
Proof. reflexivity. Qed.

Example run_all_null :
  exec_main (lib_const NULL NULL NULL) 1 ["testc"%string] tt =
  (0, {| world := tt; stdout := EmptyString;
         trace := [ev_new_file media_path NULL; ev_probe NULL NULL;
                   ev_next_packet NULL NULL] |}).
Proof. reflexivity. Qed.

Example run_null_source_live_packet :
  exec_main (lib_const NULL NULL 7) 0 [] tt =
  (0, {| world := tt; stdout := decoded_msg;
         trace := [ev_new_file media_path NULL; ev_probe NULL NULL;
                   ev_next_packet NULL 7; ev_printf decoded_msg 18] |}).
Proof. reflexivity. Qed.

Section MainFacts.
Variable W : Type.
Variable lib : library W.

(** The whole run, symbolically: three calls chained on their results,
    then the message exactly when the packet is not [NULL]. *)
Lemma exec_main_eq (argc : Z) (argv : list string) (w : W) :
  exec_main lib argc argv w =
  (0, if packet_of lib w =? NULL
      then {| world := world3 lib w; stdout := EmptyString;
              trace := ffi_prefix lib w |}
      else {| world := world3 lib w; stdout := decoded_msg;
              trace := ffi_prefix lib w ++ [ev_printf decoded_msg 18] |}).
Proof.
  unfold exec_main, ffi_prefix, packet_of, world3, format_of, world2,
    mss_of, world1.
  cbn [main bind call run perform boot world stdout trace log app].
  destruct (lib_new_file lib media_path w) as [mss w1]; cbn [fst snd].
  cbn [run perform world stdout trace log app].
  destruct (lib_probe lib mss w1) as [format w2]; cbn [fst snd].
  cbn [run perform world stdout trace log app].
  destruct (lib_next_packet lib format w2) as [packet w3]; cbn [fst snd].
  unfold ptr_neq. destruct (packet =? NULL); reflexivity.
Qed.

Lemma calls_eq (argc : Z) (argv : list string) (w : W) :
  calls lib argc argv w =
  ffi_prefix lib w ++
    (if packet_of lib w =? NULL then [] else [ev_printf decoded_msg 18]).
Proof.
  unfold calls. rewrite exec_main_eq. cbn [snd].
  destruct (packet_of lib w =? NULL); reflexivity.
Qed.

Lemma output_eq (argc : Z) (argv : list string) (w : W) :
  output lib argc argv w =
  if packet_of lib w =? NULL then EmptyString else decoded_msg.
Proof.
  unfold output. rewrite exec_main_eq. cbn [snd].
  destruct (packet_of lib w =? NULL); reflexivity.
Qed.
End MainFacts.


(** ** What [main] does, whatever the library answers *)

Section MainClaims.
Variable W : Type.
Variable lib : library W.
Variables (argc : Z) (argv : list string).
Variable w : W.

(** C1: [sm_format_next_packet] is called exactly once, and the message
    "Packet was decoded" is emitted if and only if that call returned a
    pointer other than [NULL]; when it returned [NULL] nothing is printed. *)
Theorem message_iff_packet_non_null :
  exists packet : ptr,
    next_packet_results (calls lib argc argv w) = [packet] /\
    count_calls fn_next_packet (calls lib argc argv w) = 1%nat /\
    (output lib argc argv w = "Packet was decoded"%string <-> packet <> NULL) /\
    (In (ev_printf "Packet was decoded" 18) (calls lib argc argv w)
       <-> packet <> NULL) /\
    (packet = NULL ->
       output lib argc argv w = EmptyString /\
       count_calls fn_printf (calls lib argc argv w) = 0%nat).
Proof.
  exists (packet_of lib w).
  rewrite calls_eq, output_eq. unfold ffi_prefix, count_calls.
  destruct (Z.eqb_spec (packet_of lib w) NULL) as [E | E].
  - cbn. repeat split; try congruence; try discriminate.
    intros [H | [H | [H | []]]]; discriminate.
  - cbn. repeat split; intros; try congruence; tauto.
Qed.

(** C2: the calls into the library are, in this order and once each,
    [sm_io_media_source_stream_new_file] on the fixed path, [sm_probe] on
    what that returned, [sm_format_next_packet] on what [sm_probe]
    returned; there is no other call to any of the three. *)
Theorem three_calls_chained_in_order :
  exists mss format packet : ptr,
    filter is_ffi (calls lib argc argv w) =
      [ev_new_file media_path mss; ev_probe mss format;
       ev_next_packet format packet] /\
    firstn 3 (calls lib argc argv w) = filter is_ffi (calls lib argc argv w) /\
    lib_new_file lib media_path w = (mss, world1 lib w) /\
    lib_probe lib mss (world1 lib w) = (format, world2 lib w) /\
    lib_next_packet lib format (world2 lib w) = (packet, world3 lib w) /\
    count_calls fn_new_file (calls lib argc argv w) = 1%nat /\
    count_calls fn_probe (calls lib argc argv w) = 1%nat /\
    count_calls fn_next_packet (calls lib argc argv w) = 1%nat.
Proof.
  exists (mss_of lib w), (format_of lib w), (packet_of lib w).
  rewrite calls_eq. unfold ffi_prefix, count_calls.
  repeat split;
    try (destruct (packet_of lib w =? NULL); reflexivity).
  - unfold mss_of, world1. now destruct (lib_new_file lib media_path w).
  - unfold format_of, world2. now destruct (lib_probe lib _ _).
  - unfold packet_of, world3. now destruct (lib_next_packet lib _ _).
Qed.

(** C5: no call of the run releases anything, on either path: every call
    is one of the three library entry points or [printf], [free] is never
    called, nothing but the optional [printf] follows
    [sm_format_next_packet], and the library is left in the state in
    which [sm_format_next_packet] left it. *)
Theorem no_release_call :
  Forall (fun e => is_release e = false) (calls lib argc argv w) /\
  count_calls fn_free (calls lib argc argv w) = 0%nat /\
  Forall (fun e => In (callee_of e)
                      [fn_new_file; fn_probe; fn_next_packet; fn_printf])
         (calls lib argc argv w) /\
  Forall (fun e => callee_of e = fn_printf) (skipn 3 (calls lib argc argv w)) /\
  world (snd (exec_main lib argc argv w)) = world3 lib w.
Proof.
  rewrite calls_eq, exec_main_eq. unfold ffi_prefix, count_calls.
  destruct (packet_of lib w =? NULL); cbn;
    repeat split; repeat constructor; cbn; tauto.
Qed.

(** C9: [main] returns 0 on every path, whatever the three calls
    returned and whether or not the message was printed. *)
Theorem main_returns_zero :
  exit_status lib argc argv w = 0 /\
  exists m : machine W, exec_main lib argc argv w = (0, m).
Proof.
  unfold exit_status. rewrite exec_main_eq. cbn. eauto.
Qed.

(** C10: the text written on standard output is either empty or exactly
    "Packet was decoded", with no newline after it; it is the
    concatenation of what the [printf] calls of the run wrote. *)
Theorem output_empty_or_message :
  (output lib argc argv w = EmptyString \/
   output lib argc argv w = "Packet was decoded"%string) /\
  (String.length (output lib argc argv w) <= 18)%nat /\
  output lib argc argv w =
    String.concat EmptyString
      (flat_map (fun e => match e with ev_printf fmt _ => [fmt] | _ => [] end)
                (calls lib argc argv w)).
Proof.
  rewrite calls_eq, output_eq. unfold ffi_prefix.
  destruct (packet_of lib w =? NULL); cbn; repeat split; auto; lia.
Qed.
End MainClaims.

(** C4: the command-line arguments play no part.  For any two argument
    vectors the body of [main] is the same tree of calls, so against the
    same library and starting world the two runs agree on exit status,
    output, call log and final library state; and the first call always
    opens the one hard-coded path. *)
Theorem arguments_do_not_interfere
  (W : Type) (lib : library W) (w : W)
  (argc argc' : Z) (argv argv' : list string) :
  main argc argv = main argc' argv' /\
  exec_main lib argc argv w = exec_main lib argc' argv' w /\
  hd_error (calls lib argc argv w) =
    Some (ev_new_file
            "D:\Media\Torrent\Movies\A.Million.Miles.Away.2023.DV.HDR.2160p.WEB-DL.H265.Master5.mkv"
            (mss_of lib w)).
Proof.
  split; [reflexivity | split; [reflexivity |]].
  rewrite calls_eq. reflexivity.
Qed.

(** C3: the only test [main] makes is the comparison of the packet with
    [NULL].  Whatever [sm_io_media_source_stream_new_file] and [sm_probe]
    return, [NULL] included, the value goes to the next call.  The packet
    is compared with [NULL]: the message is printed, by a fourth call,
    exactly when it is not [NULL].  Nothing else is tested: two runs,
    against any two libraries, make the same sequence of calls and print
    the same text exactly when their packets agree on being [NULL], and
    they always exit alike. *)
Theorem only_the_packet_is_checked
  (W1 W2 : Type) (lib1 : library W1) (lib2 : library W2)
  (argc1 argc2 : Z) (argv1 argv2 : list string) (w1 : W1) (w2 : W2) :
  nth_error (calls lib1 argc1 argv1 w1) 1 =
    Some (ev_probe (mss_of lib1 w1) (format_of lib1 w1)) /\
  nth_error (calls lib1 argc1 argv1 w1) 2 =
    Some (ev_next_packet (format_of lib1 w1) (packet_of lib1 w1)) /\
  map callee_of (calls lib1 argc1 argv1 w1) =
    [fn_new_file; fn_probe; fn_next_packet] ++
    (if packet_of lib1 w1 =? NULL then [] else [fn_printf]) /\
  output lib1 argc1 argv1 w1 =
    (if packet_of lib1 w1 =? NULL then EmptyString
     else "Packet was decoded"%string) /\
  (map callee_of (calls lib1 argc1 argv1 w1) =
     map callee_of (calls lib2 argc2 argv2 w2)
   <-> (packet_of lib1 w1 =? NULL) = (packet_of lib2 w2 =? NULL)) /\
  (output lib1 argc1 argv1 w1 = output lib2 argc2 argv2 w2
   <-> (packet_of lib1 w1 =? NULL) = (packet_of lib2 w2 =? NULL)) /\
  exit_status lib1 argc1 argv1 w1 = exit_status lib2 argc2 argv2 w2.
Proof.
  unfold exit_status.
  rewrite !calls_eq, !output_eq, !exec_main_eq. unfold ffi_prefix.
  destruct (packet_of lib1 w1 =? NULL), (packet_of lib2 w2 =? NULL); cbn;
    repeat split; intros; try reflexivity; try discriminate.
Qed.

(** A library that fails to open the file and to probe, and still hands
    out a packet, against one that answers every call with a live handle,
    and against one that answers no call. *)
Example null_handles_same_calls_as_live_ones :
  map callee_of (calls (lib_const NULL NULL 7) 0 [] tt) =
    map callee_of (calls lib_counting 1 ["testc"%string] 4096) /\
  output (lib_const NULL NULL 7) 0 [] tt =
    output lib_counting 1 ["testc"%string] 4096 /\
  map callee_of (calls (lib_const NULL NULL 7) 0 [] tt) <>
    map callee_of (calls (lib_const NULL NULL NULL) 0 [] tt) /\
  output (lib_const NULL NULL 7) 0 [] tt <>
    output (lib_const NULL NULL NULL) 0 [] tt.
Proof. repeat split; try reflexivity; discriminate. Qed.

(** * Properties of the format prober *)

Section ProberFacts.
Import Prober.

Example probe_mkv :
  fst (probe default_config registry
         {| content := mkv_prefix; position := 7; seekable := true |})
  = inr "mkv"%string.
Proof. reflexivity. Qed.

Example probe_truncated :
  fst (probe default_config registry
         {| content := []; position := 0; seekable := true |})
  = inl TruncatedStreamError.
Proof. reflexivity. Qed.

Example probe_unrecognized :
  fst (probe default_config registry
         {| content := repeat Byte.x00 32; position := 0; seekable := false |})
  = inl UnrecognizedFormatError.
Proof. reflexivity. Qed.





End ProberFacts.



(** * Properties of the demuxer *)

Section DemuxFacts.
Import Demux.

Example fixture_in_order :
  fst (next_packets 4 fixture) =
  [inr (Pkt (pkt 1 0)); inr (Pkt (pkt 1 10)); inr (Pkt (pkt 1 20));
   inr EndOfStream].
Proof. reflexivity. Qed.

Example fixture_seek_15 :
  fst (seek fixture 1 15) = inr 10 /\
  fst (next_packet (snd (seek fixture 1 15))) = inr (Pkt (pkt 1 10)).
Proof. split; reflexivity. Qed.

Example fixture_seek_unknown_stream :
  fst (seek fixture 2 15) = inl InvalidStreamError.
Proof. reflexivity. Qed.

Example seek_without_index :
  fst (seek (open_container [1%N] [Rec (pkt 1 0)] None false) 1 5) =
  inl SeekIndexUnavailableError.
Proof. reflexivity. Qed.

(** Timestamps out of arrival order, two streams, a linear scan: the seek
    lands on the greatest timestamp at or before the target. *)
Example interleaved_seek :
  fst (seek interleaved 1 15) = inr 10 /\
  fst (next_packet (snd (seek interleaved 1 15))) = inr (Pkt (pkt 1 10)) /\
  fst (seek interleaved 2 10) = inr 9 /\
  fst (seek interleaved 2 2) = inr 3.
Proof. repeat split; reflexivity. Qed.

(** Nothing at or before the target: the seek lands on the earliest packet
    of the stream; a known stream without packets leaves nothing to read. *)
Example seek_before_first_packet :
  fst (seek fixture 1 (-5)) = inr 0 /\
  fst (next_packet (snd (seek fixture 1 (-5)))) = inr (Pkt (pkt 1 0)) /\
  fst (next_packet
         (snd (seek (open_container [1%N; 2%N] [Rec (pkt 1 0)] None true) 2 7)))
    = inr EndOfStream.
Proof. repeat split; reflexivity. Qed.

(** A malformed record fails the demuxer; a seek brings it back. *)
Example interleaved_fails_then_recovers :
  fst (next_packets 5 interleaved) =
    [inr (Pkt (pkt 1 0)); inr (Pkt (pkt 2 3)); inr (Pkt (pkt 1 20));
     inl CorruptContainerError; inl CorruptContainerError] /\
  fst (next_packet (apply_ops (repeat OpNextPacket 5 ++ [OpSeek 2 12])
                              interleaved)) = inr (Pkt (pkt 2 12)).
Proof. split; reflexivity. Qed.

Lemma next_packet_exhausted (d : Demuxer) :
  state d = Exhausted -> next_packet d = (inr EndOfStream, d).
Proof. intros H. unfold next_packet. now rewrite H. Qed.

(** [EndOfStream] is only ever returned in, or on entering, [Exhausted]. *)
Lemma end_of_stream_exhausts (d d' : Demuxer) :
  next_packet d = (inr EndOfStream, d') -> state d' = Exhausted.
Proof.
  unfold next_packet. intros H.
  destruct (state d) eqn:S;
    try (destruct (nth_error (records d) (cursor d)) as [[p |] |];
         [destruct (known (stream_id p) (stream_table d)) | |]);
    inversion H; subst; auto.
Qed.

Lemma next_packets_exhausted (n : nat) (d : Demuxer) :
  state d = Exhausted ->
  next_packets n d = (repeat (inr EndOfStream) n, d).
Proof.
  intros H. induction n as [| n IH]; cbn [next_packets repeat].
  - reflexivity.
  - now rewrite (next_packet_exhausted d H), IH.
Qed.

(** No operation touches the records, the stream table or the index. *)
Lemma apply_op_frame (d : Demuxer) (o : Op) :
  records (apply_op d o) = records d /\
  stream_table (apply_op d o) = stream_table d /\
  seek_index (apply_op d o) = seek_index d.
Proof.
  destruct o as [| sid t]; cbn [apply_op].
  - unfold next_packet.
    destruct (state d);
      try (destruct (nth_error (records d) (cursor d)) as [[p |] |];
           [destruct (known (stream_id p) (stream_table d)) | |]);
      repeat split.
  - unfold seek. destruct (negb _); [repeat split |].
    destruct (usable_index d) as [idx |]; [| repeat split].
    destruct (nearest idx sid t None); [repeat split |].
    destruct (earliest idx sid None); repeat split.
Qed.

Lemma apply_ops_frame (ops : list Op) :
  forall d,
    records (apply_ops ops d) = records d /\
    stream_table (apply_ops ops d) = stream_table d /\
    seek_index (apply_ops ops d) = seek_index d.
Proof.
  unfold apply_ops.
  induction ops as [| o ops IH]; intros d; cbn [fold_left];
    [repeat split |].
  destruct (IH (apply_op d o)) as (-> & -> & ->). apply apply_op_frame.
Qed.

(** So an accurate index stays accurate however the demuxer is used. *)
Lemma apply_ops_accurate (ops : list Op) (d : Demuxer) :
  index_accurate d -> index_accurate (apply_ops ops d).
Proof.
  unfold index_accurate.
  destruct (apply_ops_frame ops d) as (-> & -> & ->). auto.
Qed.



Lemma fixture_accurate : index_accurate fixture.
Proof.
  intros idx e E Hin. cbn in E. inversion E; subst idx.
  cbn in Hin |- *. tauto.
Qed.

End DemuxFacts.

Section IndexFacts.
Import Demux.




End IndexFacts.

(** C6: exhaustion is idempotent.  Once [next_packet] has returned
    [EndOfStream] the demuxer is [Exhausted], and any number of further
    [next_packet] calls all return [EndOfStream], none an error, and leave
    the demuxer as it is. *)
Theorem exhausted_is_idempotent (d d' : Demux.Demuxer) :
  Demux.next_packet d = (inr Demux.EndOfStream, d') ->
  Demux.state d' = Demux.Exhausted /\
  forall n : nat,
    Demux.next_packets n d' = (repeat (inr Demux.EndOfStream) n, d') /\
    (forall e, ~ In (inl e) (fst (Demux.next_packets n d'))).
Proof.
  intros H. pose proof (end_of_stream_exhausts d d' H) as S.
  split; [exact S |]. intros n.
  rewrite (next_packets_exhausted n d' S). split; [reflexivity |].
  intros e Hin. cbn [fst] in Hin. apply repeat_spec in Hin. discriminate.
Qed.

(** The fixture of section 8 after its three packets: the fourth call ends
    the stream, and so do the next five. *)
Lemma exhausted_is_idempotent_witness :
  Demux.next_packet Demux.fixture_read =
    (inr Demux.EndOfStream,
     Demux.with_state Demux.fixture_read Demux.Exhausted) /\
  fst (Demux.next_packets 5
         (Demux.with_state Demux.fixture_read Demux.Exhausted)) =
    repeat (inr Demux.EndOfStream) 5.
Proof.
  split; [reflexivity |].
  destruct (exhausted_is_idempotent Demux.fixture_read
              (Demux.with_state Demux.fixture_read Demux.Exhausted)
              eq_refl) as [_ H].
  destruct (H 5%nat) as [E _]. rewrite E. reflexivity.
Defined.




(** * [main] when a call may not come back *)

Example run_probe_traps :
  start_main env_probe_traps 1 ["testc"%string] tt =
  {| ending := None; final := tt;
     asked := [rq_new_file media_path; rq_probe NULL] |}.
Proof. reflexivity. Qed.

Example run_printf_fails :
  start_main env_printf_fails 1 ["testc"%string] 0%nat =
  {| ending := Some 0; final := 4%nat;
     asked := [rq_new_file media_path; rq_probe 4096; rq_next_packet 4112;
               rq_printf decoded_msg] |}.
Proof. reflexivity. Qed.

Section ExecFacts.
Variable St : Type.
Variable env : environment St.
Variables (argc : Z) (argv : list string).

(** The run, case by case on what the environment answers. *)
Lemma start_main_eq (s : St) :
  start_main env argc argv s =
  match env_new_file env media_path s with
  | None => {| ending := None; final := s;
               asked := [rq_new_file media_path] |}
  | Some (mss, s1) =>
      match env_probe env mss s1 with
      | None => {| ending := None; final := s1;
                   asked := [rq_new_file media_path; rq_probe mss] |}
      | Some (format, s2) =>
          match env_next_packet env format s2 with
          | None => {| ending := None; final := s2;
                       asked := [rq_new_file media_path; rq_probe mss;
                                 rq_next_packet format] |}
          | Some (packet, s3) =>
              if packet =? NULL
              then {| ending := Some 0; final := s3;
                      asked := [rq_new_file media_path; rq_probe mss;
                                rq_next_packet format] |}
              else
                match env_printf env decoded_msg s3 with
                | None => {| ending := None; final := s3;
                             asked := [rq_new_file media_path; rq_probe mss;
                                       rq_next_packet format;
                                       rq_printf decoded_msg] |}
                | Some (_, s4) => {| ending := Some 0; final := s4;
                                     asked := [rq_new_file media_path;
                                               rq_probe mss;
                                               rq_next_packet format;
                                               rq_printf decoded_msg] |}
                end
          end
      end
  end.
Proof.
  unfold start_main.
  cbn [main bind call exec answer request_of app].
  destruct (env_new_file env media_path s) as [[mss s1] |]; [| reflexivity].
  cbn [exec answer request_of app].
  destruct (env_probe env mss s1) as [[format s2] |]; [| reflexivity].
  cbn [exec answer request_of app].
  destruct (env_next_packet env format s2) as [[packet s3] |]; [| reflexivity].
  unfold ptr_neq. destruct (packet =? NULL); cbn; [reflexivity |].
  destruct (env_printf env decoded_msg s3) as [[n s4] |]; reflexivity.
Qed.
End ExecFacts.

(** The runs of the first part are the runs here on an environment that
    always answers and whose [printf] writes its format. *)
Lemma start_main_of_library
  (W : Type) (lib : library W) (argc : Z) (argv : list string) (w : W) :
  start_main (env_of_library lib) argc argv (w, EmptyString) =
  {| ending := Some (exit_status lib argc argv w);
     final := (world (snd (exec_main lib argc argv w)), output lib argc argv w);
     asked := map request_of_event (calls lib argc argv w) |}.
Proof.
  rewrite start_main_eq. unfold exit_status.
  rewrite calls_eq, output_eq, exec_main_eq.
  unfold ffi_prefix, packet_of, world3, format_of, world2, mss_of, world1.
  cbn [env_of_library env_new_file env_probe env_next_packet env_printf fst snd].
  destruct (lib_new_file lib media_path w) as [mss w1]; cbn [fst snd].
  destruct (lib_probe lib mss w1) as [format w2]; cbn [fst snd].
  destruct (lib_next_packet lib format w2) as [packet w3]; cbn [fst snd].
  destruct (packet =? NULL); reflexivity.
Qed.

Section ExecClaims.
Variable St : Type.
Variable env : environment St.
Variables (argc : Z) (argv : list string).
Variable s : St.

(** X1: whatever the environment answers, and wherever it stops answering,
    the calls [main] asks for are an initial part of the one sequence: open
    the fixed path, probe, next packet, print the message.  At least the
    first is asked, nothing is asked out of turn, and [free] never is. *)
Theorem asked_is_initial_part_of_the_sequence :
  exists (mss format : ptr) (rest : list request),
    asked (start_main env argc argv s) ++ rest =
      [rq_new_file media_path; rq_probe mss; rq_next_packet format;
       rq_printf "Packet was decoded"] /\
    hd_error (asked (start_main env argc argv s)) =
      Some (rq_new_file media_path) /\
    (1 <= List.length (asked (start_main env argc argv s)) <= 4)%nat /\
    forall p, ~ In (rq_free p) (asked (start_main env argc argv s)).
Proof.
  rewrite start_main_eq.
  destruct (env_new_file env media_path s) as [[mss s1] |].
  2: { exists NULL, NULL. eexists. cbn. repeat split; try lia.
       intros p [H | []]; discriminate. }
  destruct (env_probe env mss s1) as [[format s2] |].
  2: { exists mss, NULL. eexists. cbn. repeat split; try lia.
       intros p [H | [H | []]]; discriminate. }
  exists mss, format.
  destruct (env_next_packet env format s2) as [[packet s3] |].
  2: { eexists. cbn. repeat split; try lia.
       intros p [H | [H | [H | []]]]; discriminate. }
  destruct (packet =? NULL).
  { eexists. cbn. repeat split; try lia.
    intros p [H | [H | [H | []]]]; discriminate. }
  destruct (env_printf env decoded_msg s3) as [[n s4] |];
    exists []; cbn; repeat split; try lia;
    intros p [H | [H | [H | [H | []]]]]; discriminate.
Qed.

(** X5: [main] never returns anything but 0.  A run either returns 0, or
    is stuck in the last call it asked for, to which the environment, in
    the state the run left it in, has no answer. *)
Theorem returns_zero_or_is_stuck :
  ending (start_main env argc argv s) = Some 0 \/
  (ending (start_main env argc argv s) = None /\
   replies env (last (asked (start_main env argc argv s)) (rq_free NULL))
           (final (start_main env argc argv s)) = false).
Proof.
  rewrite start_main_eq.
  destruct (env_new_file env media_path s) as [[mss s1] |] eqn:E1.
  2: { right. cbn [ending asked final last replies]. now rewrite E1. }
  destruct (env_probe env mss s1) as [[format s2] |] eqn:E2.
  2: { right. cbn [ending asked final last replies]. now rewrite E2. }
  destruct (env_next_packet env format s2) as [[packet s3] |] eqn:E3.
  2: { right. cbn [ending asked final last replies]. now rewrite E3. }
  destruct (packet =? NULL); [left; reflexivity |].
  destruct (env_printf env decoded_msg s3) as [[n s4] |] eqn:E4;
    [left; reflexivity |].
  right. cbn [ending asked final last replies]. now rewrite E4.
Qed.
(** X4: the message is asked to be printed exactly when all three library
    calls came back and the packet is not [NULL]: a run cut short before
    the packet is known never prints. *)
Theorem message_asked_iff_three_answers :
  In (rq_printf "Packet was decoded") (asked (start_main env argc argv s)) <->
  exists (mss : ptr) (s1 : St) (format : ptr) (s2 : St)
         (packet : ptr) (s3 : St),
    env_new_file env media_path s = Some (mss, s1) /\
    env_probe env mss s1 = Some (format, s2) /\
    env_next_packet env format s2 = Some (packet, s3) /\
    packet <> NULL.
Proof.
  rewrite start_main_eq.
  destruct (env_new_file env media_path s) as [[mss s1] |].
  2: { split; [intros [H | []]; discriminate |].
       intros (? & ? & ? & ? & ? & ? & H & _); discriminate. }
  destruct (env_probe env mss s1) as [[format s2] |] eqn:E2.
  2: { split; [intros [H | [H | []]]; discriminate |].
       intros (? & ? & ? & ? & ? & ? & H & H' & _).
       inversion H; subst. congruence. }
  destruct (env_next_packet env format s2) as [[packet s3] |] eqn:E3.
  2: { split; [intros [H | [H | [H | []]]]; discriminate |].
       intros (? & ? & ? & ? & ? & ? & H & H' & H'' & _).
       inversion H; subst. rewrite E2 in H'. inversion H'; subst. congruence. }
  destruct (Z.eqb_spec packet NULL) as [EN | EN].
  { split; [intros [H | [H | [H | []]]]; discriminate |].
    intros (? & ? & ? & ? & ? & ? & H & H' & H'' & Hn).
    inversion H; subst. rewrite E2 in H'. inversion H'; subst.
    rewrite E3 in H''. inversion H''; subst. congruence. }
  assert (Hex : exists (mss0 : ptr) (s1' : St) (format0 : ptr) (s2' : St)
                       (packet0 : ptr) (s3' : St),
             Some (mss, s1) = Some (mss0, s1') /\
             env_probe env mss0 s1' = Some (format0, s2') /\
             env_next_packet env format0 s2' = Some (packet0, s3') /\
             packet0 <> NULL)
    by (exists mss, s1, format, s2, packet, s3; auto).
  destruct (env_printf env decoded_msg s3) as [[n s4] |];
    (split; [intros _; exact Hex | intros _; cbn; tauto]).
Qed.
End ExecClaims.

(** X2: when every call comes back, [main] returns 0 after three or four
    calls, whatever the calls report: a [printf] that fails and reports a
    negative value changes nothing. *)
Theorem returns_zero_when_calls_return
  (St : Type) (env : environment St) (argc : Z) (argv : list string) (s : St) :
  always_answers env ->
  ending (start_main env argc argv s) = Some 0 /\
  (List.length (asked (start_main env argc argv s)) = 3%nat \/
   List.length (asked (start_main env argc argv s)) = 4%nat).
Proof.
  intros (A1 & A2 & A3 & A4 & _). rewrite start_main_eq.
  destruct (env_new_file env media_path s) as [[mss s1] |] eqn:E1;
    [| now apply A1 in E1].
  destruct (env_probe env mss s1) as [[format s2] |] eqn:E2;
    [| now apply A2 in E2].
  destruct (env_next_packet env format s2) as [[packet s3] |] eqn:E3;
    [| now apply A3 in E3].
  destruct (packet =? NULL); [cbn; auto |].
  destruct (env_printf env decoded_msg s3) as [[n s4] |] eqn:E4;
    [cbn; auto | now apply A4 in E4].
Qed.

Lemma env_printf_fails_always_answers : always_answers env_printf_fails.
Proof. unfold always_answers; cbn; repeat split; intros; discriminate. Defined.

(** Standard output is closed: [printf] reports -1, [main] returns 0. *)
Lemma returns_zero_when_calls_return_witness :
  always_answers env_printf_fails /\
  env_printf env_printf_fails decoded_msg 3%nat = Some (-1, 4%nat) /\
  ending (start_main env_printf_fails 1 ["testc"%string] 0%nat) = Some 0.
Proof.
  split; [exact env_printf_fails_always_answers | split; [reflexivity |]].
  apply (returns_zero_when_calls_return nat env_printf_fails 1
           ["testc"%string] 0%nat).
  exact env_printf_fails_always_answers.
Defined.

(** X3: the value [printf] returns is discarded.  Change what [printf]
    reports in any way, depending on the format and on the state: the run
    ends the same way, asks for the same calls and leaves the environment
    in the same state. *)
Theorem printf_result_is_discarded
  (St : Type) (env : environment St) (g : string -> St -> Z)
  (argc : Z) (argv : list string) (s : St) :
  start_main (with_printf_result env g) argc argv s =
  start_main env argc argv s.
Proof.
  rewrite !start_main_eq.
  cbn [with_printf_result env_new_file env_probe env_next_packet env_printf].
  destruct (env_new_file env media_path s) as [[mss s1] |]; [| reflexivity].
  destruct (env_probe env mss s1) as [[format s2] |]; [| reflexivity].
  destruct (env_next_packet env format s2) as [[packet s3] |]; [| reflexivity].
  destruct (packet =? NULL); [reflexivity |].
  destruct (env_printf env decoded_msg s3) as [[n s4] |]; reflexivity.
Qed.
